(** * DubeBox: a Flask front end over a Redis key-value store

    A shallow embedding of [app.py].  The module reads its Redis address
    from the process environment, builds one shared client [r], and
    registers three views: [home], [set_value] and [get_value].  The views
    are modelled as computations over the state of the Redis server that
    [r] talks to; an exception raised by the client propagates through the
    view, exactly as in the Python code, which has no [try] block. *)

From Stdlib Require Import ZArith NArith String Ascii List Lia.
From Stdlib Require Import DecimalString DecimalN DecimalPos DecimalFacts.
From stdpp Require Import gmap strings fin_maps.

Local Open Scope Z_scope.
Local Open Scope string_scope.

(** ** Exceptions and outcomes *)

(** The exceptions that can escape the code of [app.py]:
    [redis.exceptions.ConnectionError] from a client call, and
    [ValueError] from [int(...)] at import time. *)
Inductive exn : Type :=
| ConnectionError
| ValueError.

Inductive outcome (A : Type) : Type :=
| Returns (a : A)
| Raises (e : exn).

Arguments Returns {A} a.
Arguments Raises {A} e.

(** ** JSON values and HTTP responses *)

(** The fragment of JSON that the views build: [None], strings, and
    objects (Python dicts, in source order). *)
#[warnings="-register-all"]
Inductive json : Type :=
| JNull
| JString (s : string)
| JObject (fields : list (string * json)).

Inductive payload : Type :=
| Json (j : json)
| Html (page : string).

Record response : Type := mkResponse {
  status : Z;
  body : payload
}.

(** [jsonify(d)] wraps the dict in a response with the default status. *)
Definition jsonify (fields : list (string * json)) : response :=
  {| status := 200; body := Json (JObject fields) |}.

(** A Python [str | None] as it appears inside a jsonified dict. *)
Definition json_of_optional (o : option string) : json :=
  match o with
  | Some s => JString s
  | None => JNull
  end.

(** ** The Redis server behind the client [r] *)

(** The key space of the server, restricted to what this program can put
    there (string values, no expiry), and whether a connection to it can
    be established. *)
Record redis_server : Type := mkServer {
  reachable : bool;
  data : gmap string string
}.

(** A view is a computation that may raise and that threads the state of
    the server. *)
Definition M (A : Type) : Type := redis_server -> outcome A * redis_server.

Definition ret {A : Type} (a : A) : M A := fun w => (Returns a, w).

Definition bind {A B : Type} (m : M A) (k : A -> M B) : M B :=
  fun w =>
    match m w with
    | (Returns a, w') => k a w'
    | (Raises e, w') => (Raises e, w')
    end.

Declare Scope view_scope.
Delimit Scope view_scope with view.
Notation "x <- m ;; k" := (bind m (fun x => k))
  (at level 100, m at next level, right associativity) : view_scope.
Notation "m ;;; k" := (bind m (fun _ => k))
  (at level 100, right associativity) : view_scope.

(** [r.set(key, value)]: [SET key value]; raises when no connection can be
    made, otherwise overwrites the key and returns [True]. *)
Definition r_set (key value : string) : M bool :=
  fun w =>
    if reachable w
    then (Returns true, {| reachable := reachable w; data := <[key:=value]> (data w) |})
    else (Raises ConnectionError, w).

(** [r.get(key)]: [GET key] with [decode_responses=True]; raises when no
    connection can be made, otherwise returns the string or [None]. *)
Definition r_get (key : string) : M (option string) :=
  fun w =>
    if reachable w
    then (Returns (data w !! key), w)
    else (Raises ConnectionError, w).

(** ** The three views *)

Definition welcome_message : string := "Welcome to DubeBox 🚀".

Definition home : M response :=
  ret (jsonify [("message", JString welcome_message);
                ("status", JString "running")])%view.

(** [f"Stored {key} → {value} in Redis"] *)
Definition stored_message (key value : string) : string :=
  "Stored " +:+ key +:+ " → " +:+ value +:+ " in Redis".

Definition set_value (key value : string) : M response :=
  (r_set key value ;;;
   ret (jsonify [("message", JString (stored_message key value))]))%view.

Definition get_value (key : string) : M response :=
  (value <- r_get key ;;
   ret (jsonify [("key", JString key);
                 ("value", json_of_optional value)]))%view.

(** ** What Flask does with a view's outcome *)

(** An exception that escapes a view is answered with
    [500 Internal Server Error]; a returned response is sent as it is. *)
Definition internal_server_error : response :=
  {| status := 500; body := Html "Internal Server Error" |}.

Definition dispatch (view : M response) (w : redis_server) : response * redis_server :=
  match view w with
  | (Returns resp, w') => (resp, w')
  | (Raises _, w') => (internal_server_error, w')
  end.

(** ** Module initialisation: the address of the Redis server *)

(** Python's [int(s)] for a [str] in base ten is modelled on ASCII text:
    blanks are skipped on both sides, one sign may precede the digits, and
    single underscores may separate digits.  Text with a character outside
    ASCII (where [int] also knows other decimal digits and blanks) is
    outside the model: [int_of_str] gives no answer for it. *)
Definition is_ascii (c : ascii) : bool := (nat_of_ascii c <? 128)%nat.

Fixpoint ascii_only (s : string) : bool :=
  match s with
  | EmptyString => true
  | String c s' => is_ascii c && ascii_only s'
  end.

Definition is_space (c : ascii) : bool :=
  let n := nat_of_ascii c in
  ((9 <=? n)%nat && (n <=? 13)%nat) || (n =? 32)%nat.

Definition digit_value (c : ascii) : option Z :=
  let n := nat_of_ascii c in
  if ((48 <=? n)%nat && (n <=? 57)%nat) then Some (Z.of_nat n - 48) else None.

Fixpoint all_space (s : string) : bool :=
  match s with
  | EmptyString => true
  | String c s' => is_space c && all_space s'
  end.

Fixpoint lstrip (s : string) : string :=
  match s with
  | EmptyString => EmptyString
  | String c s' => if is_space c then lstrip s' else s
  end.

(** The interpreter refuses a numeral of more than [limit] digits, where
    [limit] is its [int_max_str_digits] setting (from the command line,
    from [PYTHONINTMAXSTRDIGITS], or 4300 by default; 0 lifts the limit).
    Numerals of up to 640 digits are never counted. *)
Definition max_str_digits_threshold : nat := 640.

Definition default_max_str_digits : nat := 4300.

Definition too_many_digits (limit n : nat) : bool :=
  (max_str_digits_threshold <? n)%nat && (0 <? limit)%nat && (limit <? n)%nat.

(** [scan_digits s acc n after_digit]: [acc] is the value of the [n]
    digits read so far, [after_digit] tells whether the previous character
    was a digit (so that an underscore or the end may follow). *)
Fixpoint scan_digits (s : string) (acc : Z) (n : nat) (after_digit : bool)
  : option (Z * nat) :=
  match s with
  | EmptyString => if after_digit then Some (acc, n) else None
  | String c s' =>
      match digit_value c with
      | Some d => scan_digits s' (10 * acc + d) (S n) true
      | None =>
          if Ascii.eqb c "_" then
            if after_digit then scan_digits s' acc n false else None
          else if is_space c && after_digit && all_space s' then Some (acc, n)
          else None
      end
  end.

Definition int_of_ascii (limit : nat) (s : string) : outcome Z :=
  let '(sign, rest) :=
    match lstrip s with
    | String "+" s' => (1, s')
    | String "-" s' => (-1, s')
    | s' => (1, s')
    end in
  match scan_digits rest 0 0 false with
  | Some (v, n) =>
      if too_many_digits limit n then Raises ValueError else Returns (sign * v)
  | None => Raises ValueError
  end.

Definition int_of_str (limit : nat) (s : string) : option (outcome Z) :=
  if ascii_only s then Some (int_of_ascii limit s) else None.

(** The two kinds of Python value that reach [int(...)] and
    [redis.Redis(...)]: [os.getenv] returns the variable's text, or the
    default it was given, whatever its type. *)
Inductive pyval : Type :=
| PyStr (s : string)
| PyInt (z : Z).

(** [int(x)]: an [int] is returned as it is, a [str] is parsed. *)
Definition py_int (limit : nat) (x : pyval) : option (outcome Z) :=
  match x with
  | PyInt z => Some (Returns z)
  | PyStr s => int_of_str limit s
  end.

(** [os.getenv(name, default)] over the process environment. *)
Definition os_getenv (environ : gmap string string) (name : string)
    (default : pyval) : pyval :=
  match environ !! name with
  | Some s => PyStr s
  | None => default
  end.

(** The client object: [redis.Redis(host=..., port=..., decode_responses=True)].
    Building it opens no connection. *)
Record Redis : Type := mkRedis {
  host : pyval;
  port : Z;
  decode_responses : bool
}.

(** [redis_host = os.getenv("REDIS_HOST", "localhost")] *)
Definition redis_host (environ : gmap string string) : pyval :=
  os_getenv environ "REDIS_HOST" (PyStr "localhost").

(** [redis_port = int(os.getenv("REDIS_PORT", 6379))] *)
Definition redis_port (limit : nat) (environ : gmap string string)
  : option (outcome Z) :=
  py_int limit (os_getenv environ "REDIS_PORT" (PyInt 6379)).

(** [r = redis.Redis(host=redis_host, port=redis_port, decode_responses=True)];
    an exception raised by [int] aborts the import before [r] exists. *)
Definition r (limit : nat) (environ : gmap string string) : option (outcome Redis) :=
  match redis_port limit environ with
  | Some (Returns p) =>
      Some (Returns {| host := redis_host environ; port := p;
                       decode_responses := true |})
  | Some (Raises e) => Some (Raises e)
  | None => None
  end.

(** The decimal numeral of a natural number, as a shell or a compose file
    would write it. *)
Definition decimal (n : N) : string := NilEmpty.string_of_uint (N.to_uint n).

(** ** Sequences of requests *)

(** The three URL rules of the module: [/], [/set/<key>/<value>] and
    [/get/<key>], each bound to its view. *)
Inductive request : Type :=
| Home
| SetValue (key value : string)
| GetValue (key : string).

Definition view_of (q : request) : M response :=
  match q with
  | Home => home
  | SetValue key value => set_value key value
  | GetValue key => get_value key
  end.

(** Requests answered one after the other by the single process. *)
Fixpoint serve (qs : list request) (w : redis_server) : list response * redis_server :=
  match qs with
  | [] => ([], w)
  | q :: qs' =>
      let '(resp, w') := dispatch (view_of q) w in
      let '(resps, w'') := serve qs' w' in
      (resp :: resps, w'')
  end.

(** ** The URL map *)

(** The three rules registered by [@app.route]: ['/'], ['/set/<key>/<value>']
    and ['/get/<key>'].  A request is given by its path (the [PATH_INFO] of
    a GET request, which starts with a slash).  Leading slashes are
    dropped, the rest is cut at its slashes, and a variable part matches
    any non-empty piece (the default converter, one or more characters
    other than a slash). *)
Fixpoint strip_leading_slashes (path : string) : string :=
  match path with
  | String c path' => if Ascii.eqb c "/" then strip_leading_slashes path' else path
  | EmptyString => EmptyString
  end.

(** [s.split("/")] *)
Fixpoint split_slash (s : string) : list string :=
  match s with
  | EmptyString => [EmptyString]
  | String c s' =>
      if Ascii.eqb c "/" then EmptyString :: split_slash s'
      else match split_slash s' with
           | piece :: pieces => String c piece :: pieces
           | [] => [String c EmptyString]
           end
  end.

Definition converter_matches (piece : string) : bool :=
  negb (String.eqb piece "").

Definition match_rules (pieces : list string) : option request :=
  match pieces with
  | [p] => if String.eqb p "" then Some Home else None
  | [p; key] =>
      if String.eqb p "get" && converter_matches key
      then Some (GetValue key) else None
  | [p; key; value] =>
      if String.eqb p "set" && converter_matches key && converter_matches value
      then Some (SetValue key value) else None
  | _ => None
  end.

Definition url_map (path : string) : option request :=
  match_rules (split_slash (strip_leading_slashes path)).

(** When no rule matches, doubled slashes are merged, pair by pair, and
    the rules are tried again. *)
Fixpoint merge_slashes (s : string) : string :=
  match s with
  | String c s' =>
      match s' with
      | String c' s'' =>
          if Ascii.eqb c "/" && Ascii.eqb c' "/"
          then String "/" (merge_slashes s'')
          else String c (merge_slashes s')
      | EmptyString => s
      end
  | EmptyString => EmptyString
  end.

Definition not_found : response :=
  {| status := 404; body := Html "Not Found" |}.

Definition permanent_redirect : response :=
  {| status := 308; body := Html "Redirecting..." |}.

(** The application as a whole: a path that matches a rule is answered by
    the rule's view; one that matches only after merging slashes is
    answered with a redirect to the merged path; any other is answered
    404.  In the last two cases no view runs. *)
Definition wsgi_app (path : string) (w : redis_server) : response * redis_server :=
  match url_map path with
  | Some q => dispatch (view_of q) w
  | None =>
      match match_rules (split_slash (merge_slashes (strip_leading_slashes path))) with
      | Some _ => (permanent_redirect, w)
      | None => (not_found, w)
      end
  end.


Fixpoint no_slash (s : string) : bool :=
  match s with
  | EmptyString => true
  | String c s' => negb (Ascii.eqb c "/") && no_slash s'
  end.

(** ** Vocabulary of the statements *)

(** The server after a successful [SET k v]. *)
Definition stored (w : redis_server) (k v : string) : redis_server :=
  {| reachable := reachable w; data := <[k:=v]> (data w) |}.

(** [msg] contains [k] and, after it, [v]. *)
Definition echoes (msg k v : string) : Prop :=
  exists a b c, msg = a +:+ k +:+ b +:+ v +:+ c.

(** An environment that sets the two variables the specification names. *)
Definition backend_environ : gmap string string :=
  {["BACKEND_HOST" := "db"; "BACKEND_PORT" := "7000"]}.

(** The value that the writes among [qs], taken in order, leave under
    [k] when it held [o] before. *)
Fixpoint last_write (k : string) (qs : list request) (o : option string)
  : option string :=
  match qs with
  | [] => o
  | SetValue k' v :: qs' => last_write k qs' (if decide (k' = k) then Some v else o)
  | _ :: qs' => last_write k qs' o
  end.

Definition is_write (q : request) : bool :=
  match q with
  | SetValue _ _ => true
  | _ => false
  end.

(** What a request is answered with when the server cannot be reached. *)
Definition answer_when_down (q : request) : response :=
  match q with
  | Home => jsonify [("message", JString welcome_message);
                     ("status", JString "running")]
  | _ => internal_server_error
  end.

(** Whether one of the ASCII digits 0 to 9 occurs in [s]. *)
Fixpoint has_digit (s : string) : bool :=
  match s with
  | EmptyString => false
  | String c s' =>
      match digit_value c with
      | Some _ => true
      | None => has_digit s'
      end
  end.

(** * Properties *)

(** ** Equations of the views *)

Lemma set_value_eq (w : redis_server) (k v : string) :
  set_value k v w =
    if reachable w
    then (Returns (jsonify [("message", JString (stored_message k v))]), stored w k v)
    else (Raises ConnectionError, w).
Proof.
  unfold set_value, bind, r_set, ret, stored.
  destruct (reachable w); reflexivity.
Qed.

Lemma get_value_eq (w : redis_server) (k : string) :
  get_value k w =
    if reachable w
    then (Returns (jsonify [("key", JString k);
                            ("value", json_of_optional (data w !! k))]), w)
    else (Raises ConnectionError, w).
Proof.
  unfold get_value, bind, r_get, ret.
  destruct (reachable w); reflexivity.
Qed.

Lemma view_preserves_reachable (q : request) (w : redis_server) :
  reachable (snd (view_of q w)) = reachable w.
Proof.
  destruct q as [|k v|k]; cbn [view_of].
  - reflexivity.
  - rewrite set_value_eq. destruct (reachable w) eqn:E; cbn; congruence.
  - rewrite get_value_eq. destruct (reachable w) eqn:E; cbn; congruence.
Qed.

Lemma dispatch_snd (view : M response) (w : redis_server) :
  snd (dispatch view w) = snd (view w).
Proof.
  unfold dispatch. destruct (view w) as [[resp|e] w']; reflexivity.
Qed.

Lemma serve_cons (q : request) (qs : list request) (w : redis_server) :
  snd (serve (q :: qs) w) = snd (serve qs (snd (view_of q w))).
Proof.
  cbn [serve]. rewrite <- dispatch_snd.
  destruct (dispatch (view_of q) w) as [resp w'].
  cbn [snd]. destruct (serve qs w') as [resps w'']. reflexivity.
Qed.

(** A view only ever adds to the key space of the server. *)
Lemma view_keeps_keys (q : request) (w : redis_server) :
  dom (data w) ⊆ dom (data (snd (view_of q w))).
Proof.
  destruct q as [|k v|k]; cbn [view_of].
  - reflexivity.
  - rewrite set_value_eq. destruct (reachable w); cbn; [|reflexivity].
    rewrite dom_insert_L. set_solver.
  - rewrite get_value_eq. destruct (reachable w); reflexivity.
Qed.

(** ** The welcome view *)

(** C8: the welcome route answers 200 with the same two-field payload,
    [message] and [status = "running"], in every state of the server, and
    leaves that state exactly as it was. *)
Theorem home_static_no_effect (w : redis_server) :
  home w =
    (Returns {| status := 200;
                body := Json (JObject [("message", JString welcome_message);
                                       ("status", JString "running")]) |},
     w).
Proof. reflexivity. Qed.

(** ** Reading and writing *)

(** C1: read-your-write.  On a reachable server, [set_value k v] followed
    at once by [get_value k] returns the response carrying [v]. *)
Theorem read_your_write (w : redis_server) (k v : string) :
  reachable w = true ->
  fst (get_value k (snd (set_value k v w))) =
    Returns (jsonify [("key", JString k); ("value", JString v)]).
Proof.
  intros Hup.
  rewrite set_value_eq, Hup. cbn [snd].
  rewrite get_value_eq. unfold stored; cbn [reachable data]. rewrite Hup.
  cbn [fst]. now rewrite lookup_insert_eq.
Qed.

Lemma read_your_write_witness :
  reachable (mkServer true ∅) = true /\
  fst (get_value "k" (snd (set_value "k" "v" (mkServer true ∅)))) =
    Returns (jsonify [("key", JString "k"); ("value", JString "v")]).
Proof.
  split; [reflexivity | apply (read_your_write (mkServer true ∅) "k" "v"); reflexivity].
Defined.

(** C3: a key that is absent from the store is answered, on a reachable
    server, with a normal 200 response whose [value] is [null]; no
    exception is raised. *)
Theorem get_absent_key_null (w : redis_server) (k : string) :
  reachable w = true ->
  data w !! k = None ->
  get_value k w =
    (Returns {| status := 200;
                body := Json (JObject [("key", JString k); ("value", JNull)]) |},
     w).
Proof.
  intros Hup Habs. rewrite get_value_eq, Hup, Habs. reflexivity.
Qed.

Lemma get_absent_key_null_witness :
  reachable (mkServer true {["a" := "1"]}) = true /\
  data (mkServer true {["a" := "1"]}) !! "b" = None /\
  get_value "b" (mkServer true {["a" := "1"]}) =
    (Returns {| status := 200;
                body := Json (JObject [("key", JString "b"); ("value", JNull)]) |},
     mkServer true {["a" := "1"]}).
Proof.
  split; [reflexivity | split; [reflexivity |]].
  apply (get_absent_key_null (mkServer true {["a" := "1"]}) "b"); reflexivity.
Defined.

(** C9: [get_value] leaves the server as it found it, whatever the state
    and the key, also when the call raises. *)
Theorem get_value_no_effect (w : redis_server) (k : string) :
  snd (get_value k w) = w /\ snd (dispatch (get_value k) w) = w.
Proof.
  rewrite dispatch_snd, get_value_eq.
  destruct (reachable w); split; reflexivity.
Qed.

(** C10: [set_value k v] changes what is read under [k] only: for every
    other key [k'], [get_value k'] gives the same outcome after the write
    as before it. *)
Theorem set_value_other_keys (w : redis_server) (k v k' : string) :
  k' <> k ->
  fst (get_value k' (snd (set_value k v w))) = fst (get_value k' w).
Proof.
  intros Hne.
  rewrite set_value_eq, !get_value_eq.
  destruct (reachable w) eqn:Hup; cbn [snd].
  - unfold stored; cbn [reachable data]. rewrite Hup. cbn [fst].
    rewrite lookup_insert_ne by congruence. reflexivity.
  - rewrite Hup. reflexivity.
Qed.

Lemma set_value_other_keys_witness :
  "b" <> "a" /\
  fst (get_value "b" (snd (set_value "a" "9" (mkServer true {["b" := "2"]})))) =
    fst (get_value "b" (mkServer true {["b" := "2"]})).
Proof.
  split; [discriminate |].
  apply (set_value_other_keys (mkServer true {["b" := "2"]}) "a" "9" "b"); discriminate.
Defined.

(** A key that no request of the sequence sets stays absent. *)
Lemma never_set_absent (qs : list request) (w : redis_server) (k : string) :
  data w !! k = None ->
  (forall v, ~ In (SetValue k v) qs) ->
  data (snd (serve qs w)) !! k = None.
Proof.
  revert w. induction qs as [|q qs IH]; intros w Habs Hnot; [exact Habs|].
  rewrite serve_cons. apply IH.
  - destruct q as [|k0 v0|k0]; cbn [view_of].
    + exact Habs.
    + rewrite set_value_eq. destruct (reachable w); cbn; [|exact Habs].
      rewrite lookup_insert_ne; [exact Habs|].
      intros ->. apply (Hnot v0). now left.
    + rewrite get_value_eq. destruct (reachable w); exact Habs.
  - intros v Hin. apply (Hnot v). now right.
Qed.

(** C7: on a reachable server [set_value k v] succeeds for every key (so
    for every non-empty one): it answers 200 with the one-field object
    [{message}], the message echoes [k] and [v], and afterwards the
    server holds [v] under [k]. *)
Theorem set_value_stores_and_echoes (w : redis_server) (k v : string) :
  reachable w = true ->
  set_value k v w =
    (Returns {| status := 200;
                body := Json (JObject [("message", JString (stored_message k v))]) |},
     stored w k v) /\
  data (stored w k v) !! k = Some v /\
  echoes (stored_message k v) k v.
Proof.
  intros Hup. rewrite set_value_eq, Hup. split; [reflexivity|]. split.
  - apply lookup_insert_eq.
  - exists "Stored ", " → ", " in Redis". reflexivity.
Qed.

Lemma set_value_stores_and_echoes_witness :
  reachable (mkServer true ∅) = true /\
  set_value "colour" "blue" (mkServer true ∅) =
    (Returns {| status := 200;
                body := Json (JObject [("message",
                                        JString "Stored colour → blue in Redis")]) |},
     mkServer true {["colour" := "blue"]}) /\
  ({["colour" := "blue"]} : gmap string string) !! "colour" = Some "blue".
Proof.
  split; [reflexivity|].
  destruct (set_value_stores_and_echoes (mkServer true ∅) "colour" "blue" eq_refl)
    as (Heq & Hget & _).
  split; [exact Heq | exact Hget].
Defined.

(** C6: when the server cannot be reached, [get_value k] raises the
    client's [ConnectionError] for every key; Flask answers with status
    500, which is not the 200 response with a [null] value that a missing
    key produces. *)
Theorem get_value_unreachable (w : redis_server) (k : string) :
  reachable w = false ->
  get_value k w = (Raises ConnectionError, w) /\
  status (fst (dispatch (get_value k) w)) = 500 /\
  fst (dispatch (get_value k) w) <> jsonify [("key", JString k); ("value", JNull)].
Proof.
  intros Hdown. unfold dispatch. rewrite get_value_eq, Hdown. cbn.
  split; [reflexivity|]. split; [reflexivity|]. discriminate.
Qed.

Lemma get_value_unreachable_witness :
  reachable (mkServer false {["k" := "v"]}) = false /\
  get_value "k" (mkServer false {["k" := "v"]}) =
    (Raises ConnectionError, mkServer false {["k" := "v"]}) /\
  status (fst (dispatch (get_value "k") (mkServer false {["k" := "v"]}))) = 500.
Proof.
  split; [reflexivity|].
  destruct (get_value_unreachable (mkServer false {["k" := "v"]}) "k" eq_refl)
    as (Hraise & Hstatus & _).
  split; [exact Hraise | exact Hstatus].
Defined.

(** ** The URL map and the empty key *)

Lemma append_cons (c : ascii) (s t : string) :
  String c s +:+ t = String c (s +:+ t).
Proof. reflexivity. Qed.

Lemma append_empty_l (t : string) : "" +:+ t = t.
Proof. reflexivity. Qed.

Lemma split_slash_nonempty (s : string) : split_slash s <> [].
Proof.
  destruct s as [|c s]; [discriminate|].
  cbn [split_slash]. destruct (Ascii.eqb c "/"); [discriminate|].
  destruct (split_slash s); discriminate.
Qed.

Lemma split_slash_no_slash (s : string) :
  no_slash s = true -> split_slash s = [s].
Proof.
  induction s as [|c s IH]; [reflexivity|].
  cbn [no_slash split_slash]. intros H.
  apply andb_true_iff in H as [Hc Hs].
  apply negb_true_iff in Hc. rewrite Hc, (IH Hs). reflexivity.
Qed.

(** Cutting at slashes distributes over a slash in the middle. *)
Lemma split_slash_app (a b : string) :
  split_slash (a +:+ String "/" b) = (split_slash a ++ split_slash b)%list.
Proof.
  induction a as [|c a IH]; [reflexivity|].
  rewrite append_cons. cbn [split_slash]. rewrite IH.
  destruct (Ascii.eqb c "/"); [reflexivity|].
  destruct (split_slash a) as [|p ps] eqn:E; [|reflexivity].
  now apply split_slash_nonempty in E.
Qed.

Lemma split_slash_pieces (s : string) :
  Forall (fun piece => no_slash piece = true) (split_slash s).
Proof.
  induction s as [|c s IH]; [repeat constructor|].
  cbn [split_slash]. destruct (Ascii.eqb c "/") eqn:Hc; [now constructor|].
  destruct (split_slash s) as [|p ps]; [repeat constructor; cbn; now rewrite Hc|].
  inversion IH as [|? ? Hp Hps]; subst.
  constructor; [|exact Hps]. cbn [no_slash]. now rewrite Hc, Hp.
Qed.

Lemma merge_slashes_no_slash (s : string) :
  no_slash s = true -> merge_slashes s = s.
Proof.
  induction s as [|c s IH]; [reflexivity|].
  intros H. cbn [no_slash] in H. apply andb_true_iff in H as [Hc Hs].
  apply negb_true_iff in Hc.
  cbn [merge_slashes]. destruct s as [|c' s']; [reflexivity|].
  rewrite Hc. cbn [andb]. now rewrite (IH Hs).
Qed.

Lemma pieces_set (k v : string) :
  no_slash k = true -> no_slash v = true ->
  split_slash (strip_leading_slashes ("/set/" +:+ k +:+ "/" +:+ v)) = ["set"; k; v].
Proof.
  intros Hk Hv.
  change (strip_leading_slashes ("/set/" +:+ k +:+ "/" +:+ v))
    with ("set" +:+ String "/" (k +:+ String "/" v)).
  rewrite !split_slash_app.
  now rewrite (split_slash_no_slash k Hk), (split_slash_no_slash v Hv).
Qed.

Lemma pieces_get (k : string) :
  no_slash k = true ->
  split_slash (strip_leading_slashes ("/get/" +:+ k)) = ["get"; k].
Proof.
  intros Hk.
  change (strip_leading_slashes ("/get/" +:+ k)) with ("get" +:+ String "/" k).
  rewrite split_slash_app. now rewrite (split_slash_no_slash k Hk).
Qed.

Lemma wsgi_app_snd (path : string) (w : redis_server) :
  snd (wsgi_app path w) =
    match url_map path with
    | Some q => snd (view_of q w)
    | None => w
    end.
Proof.
  unfold wsgi_app. destruct (url_map path) as [q|].
  - apply dispatch_snd.
  - now destruct (match_rules _).
Qed.

(** C2, as stated, fails: the request for the set route with an empty key
    and the value [x] is not answered with status 400. *)
Lemma set_empty_key_not_rejected :
  status (fst (wsgi_app "/set//x" (mkServer true ∅))) <> 400.
Proof. vm_compute. discriminate. Qed.

(** C2, amended: a request for the set route with an empty key never
    reaches [set_value].  The rule ['/set/<key>/<value>'] does not match
    an empty piece, so the answer is 404 Not Found, no call to the Redis
    client is made, and the server is left as it was, reachable or not. *)
Theorem set_empty_key_not_found (x : string) (w : redis_server) :
  no_slash x = true ->
  url_map ("/set//" +:+ x) = None /\
  wsgi_app ("/set//" +:+ x) w = (not_found, w).
Proof.
  intros Hx.
  assert (Hmap : url_map ("/set//" +:+ x) = None).
  { unfold url_map.
    change ("/set//" +:+ x) with ("/set/" +:+ "" +:+ "/" +:+ x).
    rewrite (pieces_set "" x eq_refl Hx). reflexivity. }
  split; [exact Hmap|].
  unfold wsgi_app. rewrite Hmap.
  change (merge_slashes (strip_leading_slashes ("/set//" +:+ x)))
    with ("set" +:+ String "/" (merge_slashes x)).
  rewrite (merge_slashes_no_slash x Hx), split_slash_app.
  now rewrite (split_slash_no_slash x Hx).
Qed.

Lemma set_empty_key_not_found_witness :
  no_slash "x" = true /\
  url_map "/set//x" = None /\
  wsgi_app "/set//x" (mkServer true {["k" := "v"]}) =
    (not_found, mkServer true {["k" := "v"]}).
Proof.
  split; [reflexivity|].
  apply (set_empty_key_not_found "x" (mkServer true {["k" := "v"]}) eq_refl).
Defined.

(** ** Keys are never removed *)

Lemma serve_keeps_keys (qs : list request) (w : redis_server) :
  dom (data w) ⊆ dom (data (snd (serve qs w))).
Proof.
  revert w. induction qs as [|q qs IH]; intros w; [reflexivity|].
  rewrite serve_cons. etransitivity; [apply view_keeps_keys | apply IH].
Qed.

(** ** The address of the Redis server *)

Example int_of_str_plain :
  int_of_str default_max_str_digits "6379" = Some (Returns 6379).
Proof. reflexivity. Qed.

Example int_of_str_blanks_sign_underscore :
  int_of_str default_max_str_digits "  +6_379 " = Some (Returns 6379).
Proof. reflexivity. Qed.

Example int_of_str_negative :
  int_of_str default_max_str_digits "-1" = Some (Returns (-1)).
Proof. reflexivity. Qed.

Example int_of_str_not_a_number :
  int_of_str default_max_str_digits "redis" = Some (Raises ValueError).
Proof. reflexivity. Qed.

Example int_of_str_empty :
  int_of_str default_max_str_digits "" = Some (Raises ValueError).
Proof. reflexivity. Qed.

Example int_of_str_double_underscore :
  int_of_str default_max_str_digits "6__379" = Some (Raises ValueError).
Proof. reflexivity. Qed.

Example int_of_str_outside_ascii :
  int_of_str default_max_str_digits "６３７９" = None.
Proof. reflexivity. Qed.

Example r_bad_port_raises :
  r default_max_str_digits {["REDIS_PORT" := "redis"]} = Some (Raises ValueError).
Proof. reflexivity. Qed.

Lemma too_many_digits_below_threshold (limit n : nat) :
  (n <= max_str_digits_threshold)%nat -> too_many_digits limit n = false.
Proof.
  intros Hn. unfold too_many_digits.
  destruct (Nat.ltb_spec max_str_digits_threshold n) as [Hlt|_]; [lia | reflexivity].
Qed.

Lemma int_of_ascii_digit_first (limit : nat) (c : ascii) (s : string) (d : Z) :
  digit_value c = Some d ->
  int_of_ascii limit (String c s) =
    match scan_digits (String c s) 0 0 false with
    | Some (v, n) =>
        if too_many_digits limit n then Raises ValueError else Returns (1 * v)
    | None => Raises ValueError
    end.
Proof.
  destruct c as [[] [] [] [] [] [] [] []]; cbn; intros H;
    try discriminate H; reflexivity.
Qed.

Lemma space_not_digit (c : ascii) :
  is_space c = true ->
  digit_value c = None /\ Ascii.eqb c "_" = false /\ is_ascii c = true.
Proof.
  destruct c as [[] [] [] [] [] [] [] []]; cbn; intros H;
    try discriminate H; repeat split; reflexivity.
Qed.

Lemma lstrip_blanks (pre s : string) :
  all_space pre = true -> lstrip (pre +:+ s) = lstrip s.
Proof.
  induction pre as [|c pre IH]; intros Hpre; [reflexivity|].
  cbn [all_space] in Hpre. apply andb_true_iff in Hpre as [Hc Hpre].
  rewrite append_cons. cbn [lstrip]. rewrite Hc. now apply IH.
Qed.

Lemma int_of_ascii_leading_blanks (limit : nat) (pre s : string) :
  all_space pre = true -> int_of_ascii limit (pre +:+ s) = int_of_ascii limit s.
Proof.
  intros Hpre. unfold int_of_ascii. now rewrite lstrip_blanks.
Qed.

Lemma scan_digits_trailing_blanks (post : string) (acc : Z) (n : nat) :
  all_space post = true -> scan_digits post acc n true = Some (acc, n).
Proof.
  destruct post as [|c post]; intros Hpost; [reflexivity|].
  cbn [all_space] in Hpost. apply andb_true_iff in Hpost as [Hc Hpost].
  destruct (space_not_digit c Hc) as (Hd & Hu & _).
  cbn [scan_digits]. now rewrite Hd, Hu, Hc, Hpost.
Qed.

Ltac scan_step IH :=
  cbn [NilEmpty.string_of_uint]; rewrite append_cons;
  cbn [scan_digits String.length Decimal.revapp];
  match goal with
  | |- context [digit_value ?c] =>
      let v := eval vm_compute in (digit_value c) in
      change (digit_value c) with v; cbv iota
  end;
  match goal with
  | |- scan_digits _ ?acc ?m ?b =
       scan_digits _ (Z.of_N (DecimalPos.Unsigned.of_lu (Decimal.revapp _ ?e))) _ _ =>
      replace acc with (Z.of_N (DecimalPos.Unsigned.of_lu e))
        by (cbn [DecimalPos.Unsigned.of_lu]; lia);
      rewrite (IH e m b) by (right; reflexivity);
      f_equal; lia
  end.

(** Scanning a numeral followed by more text reaches that text with the
    numeral's value accumulated, by Horner's rule, and its digits
    counted. *)
Lemma scan_digits_uint (d d' : Decimal.uint) (n : nat) (b : bool) (rest : string) :
  d <> Decimal.Nil \/ b = true ->
  scan_digits (NilEmpty.string_of_uint d +:+ rest)
              (Z.of_N (DecimalPos.Unsigned.of_lu d')) n b =
    scan_digits rest (Z.of_N (DecimalPos.Unsigned.of_lu (Decimal.revapp d d')))
                (n + String.length (NilEmpty.string_of_uint d))%nat true.
Proof.
  revert d' n b.
  induction d as [|d IH|d IH|d IH|d IH|d IH|d IH|d IH|d IH|d IH|d IH];
    intros d' n b Hok; [|scan_step IH ..].
  destruct Hok as [Hnil | ->]; [congruence|].
  cbn [NilEmpty.string_of_uint Decimal.revapp String.length].
  rewrite append_empty_l. f_equal. lia.
Qed.

Lemma to_uint_not_nil (n : N) : N.to_uint n <> Decimal.Nil.
Proof.
  destruct n as [|p]; [discriminate | apply DecimalPos.Unsigned.to_uint_nonnil].
Qed.

Lemma scan_digits_decimal (n : N) (post : string) :
  all_space post = true ->
  scan_digits (decimal n +:+ post) 0 0 false =
    Some (Z.of_N n, String.length (decimal n)).
Proof.
  intros Hpost. unfold decimal.
  assert (Hscan := scan_digits_uint (N.to_uint n) Decimal.Nil 0 false post
                     (or_introl (to_uint_not_nil n))).
  change (Z.of_N (DecimalPos.Unsigned.of_lu Decimal.Nil)) with 0 in Hscan.
  rewrite Hscan, scan_digits_trailing_blanks by exact Hpost.
  change (Decimal.revapp (N.to_uint n) Decimal.Nil) with (Decimal.rev (N.to_uint n)).
  rewrite <- DecimalPos.Unsigned.of_uint_alt.
  change (Pos.of_uint (N.to_uint n)) with (N.of_uint (N.to_uint n)).
  now rewrite DecimalN.Unsigned.of_to.
Qed.

Lemma decimal_digit_first (n : N) :
  exists c s d, decimal n = String c s /\ digit_value c = Some d.
Proof.
  unfold decimal. assert (Hnn := to_uint_not_nil n).
  destruct (N.to_uint n); try congruence; cbn;
    do 3 eexists; (split; [reflexivity | vm_compute; reflexivity]).
Qed.

Lemma append_empty_r (s : string) : s +:+ "" = s.
Proof.
  induction s as [|c s IH]; [reflexivity|].
  rewrite append_cons. now rewrite IH.
Qed.

Lemma ascii_only_app (a b : string) :
  ascii_only (a +:+ b) = ascii_only a && ascii_only b.
Proof.
  induction a as [|c a IH]; [reflexivity|].
  rewrite append_cons. cbn [ascii_only]. rewrite IH. apply andb_assoc.
Qed.

Lemma ascii_only_blanks (s : string) : all_space s = true -> ascii_only s = true.
Proof.
  induction s as [|c s IH]; [reflexivity|].
  cbn [all_space ascii_only]. intros H. apply andb_true_iff in H as [Hc Hs].
  destruct (space_not_digit c Hc) as (_ & _ & Ha). now rewrite Ha, IH.
Qed.

Lemma ascii_only_decimal (n : N) : ascii_only (decimal n) = true.
Proof.
  unfold decimal. generalize (N.to_uint n). intros d.
  induction d; cbn [NilEmpty.string_of_uint ascii_only];
    [reflexivity | rewrite IHd; reflexivity ..].
Qed.

(** A decimal numeral of at most 640 digits, blanks after it or not, is
    read as its value, whatever the interpreter's digit limit. *)
Lemma int_of_ascii_decimal (limit : nat) (n : N) (post : string) :
  (String.length (decimal n) <= max_str_digits_threshold)%nat ->
  all_space post = true ->
  int_of_ascii limit (decimal n +:+ post) = Returns (Z.of_N n).
Proof.
  intros Hlen Hpost.
  destruct (decimal_digit_first n) as (c & s & d & Hdec & Hd).
  assert (Hscan := scan_digits_decimal n post Hpost).
  rewrite Hdec in Hscan |- *. rewrite append_cons in Hscan |- *.
  rewrite (int_of_ascii_digit_first limit c (s +:+ post) d Hd), Hscan.
  rewrite too_many_digits_below_threshold by (now rewrite <- Hdec).
  f_equal; lia.
Qed.

Lemma int_of_ascii_minus_decimal (limit : nat) (n : N) :
  (String.length (decimal n) <= max_str_digits_threshold)%nat ->
  int_of_ascii limit ("-" +:+ decimal n) = Returns (- Z.of_N n).
Proof.
  intros Hlen.
  assert (Hscan := scan_digits_decimal n "" eq_refl).
  rewrite append_empty_r in Hscan.
  change (int_of_ascii limit ("-" +:+ decimal n)) with
    (match scan_digits (decimal n) 0 0 false with
     | Some (v, m) =>
         if too_many_digits limit m then Raises ValueError else Returns (-1 * v)
     | None => Raises ValueError
     end).
  rewrite Hscan, too_many_digits_below_threshold by exact Hlen.
  f_equal; lia.
Qed.

Lemma scan_digits_needs_digit (s : string) (acc : Z) (n : nat) :
  has_digit s = false -> scan_digits s acc n false = None.
Proof.
  destruct s as [|c s]; [reflexivity|].
  cbn [has_digit scan_digits]. destruct (digit_value c); [discriminate|].
  intros _. destruct (Ascii.eqb c "_"); [reflexivity|].
  now rewrite andb_false_r.
Qed.

Lemma lstrip_has_digit (s : string) :
  has_digit s = false -> has_digit (lstrip s) = false.
Proof.
  induction s as [|c s IH]; [reflexivity|].
  intros H. cbn [lstrip]. destruct (is_space c); [|exact H].
  apply IH. cbn [has_digit] in H. now destruct (digit_value c).
Qed.

Lemma int_of_ascii_needs_digit (limit : nat) (s : string) :
  has_digit s = false -> int_of_ascii limit s = Raises ValueError.
Proof.
  intros H. apply lstrip_has_digit in H. unfold int_of_ascii.
  destruct (lstrip s) as [|c s'] eqn:E.
  - reflexivity.
  - assert (Htail : has_digit s' = false).
    { cbn [has_digit] in H. now destruct (digit_value c). }
    assert (Hsame : scan_digits (String c s') 0 0 false = None)
      by now apply scan_digits_needs_digit.
    assert (Hrest : scan_digits s' 0 0 false = None)
      by now apply scan_digits_needs_digit.
    destruct c as [[] [] [] [] [] [] [] []];
      first [ now rewrite Hrest | now rewrite Hsame ].
Qed.

Lemma r_ignores_backend_variables (limit : nat) (environ : gmap string string)
    (h p : string) :
  r limit (<["BACKEND_HOST" := h]> (<["BACKEND_PORT" := p]> environ)) =
  r limit environ.
Proof.
  unfold r, redis_port, redis_host, os_getenv.
  rewrite !lookup_insert_ne by discriminate. reflexivity.
Qed.

(** C5, as stated, fails: an environment that assigns [BACKEND_HOST] and
    [BACKEND_PORT] does not make the client use their values. *)
Lemma backend_variables_not_read :
  r default_max_str_digits backend_environ <>
    Some (Returns {| host := PyStr "db"; port := 7000; decode_responses := true |}).
Proof.
  intros H. vm_compute in H. discriminate H.
Qed.

(** C5, amended: the variables read are [REDIS_HOST] and [REDIS_PORT].
    The host is the text of [REDIS_HOST], or ["localhost"] without it; the
    port is the number written in [REDIS_PORT] as a decimal numeral of at
    most 640 digits, or 6379 without it.  This holds for every digit limit
    of the interpreter, hence whatever else the environment sets. *)
Theorem r_reads_redis_variables (limit : nat) (environ : gmap string string) (n : N) :
  (String.length (decimal n) <= max_str_digits_threshold)%nat ->
  environ !! "REDIS_PORT" = Some (decimal n) \/
    (environ !! "REDIS_PORT" = None /\ n = 6379%N) ->
  r limit environ =
    Some (Returns {| host := PyStr (default "localhost" (environ !! "REDIS_HOST"));
                     port := Z.of_N n;
                     decode_responses := true |}).
Proof.
  intros Hlen Hport.
  assert (Hp : redis_port limit environ = Some (Returns (Z.of_N n))).
  { unfold redis_port, os_getenv.
    destruct Hport as [-> | [-> ->]]; [|reflexivity].
    cbn [py_int]. unfold int_of_str. rewrite ascii_only_decimal.
    rewrite <- (append_empty_r (decimal n)).
    now rewrite int_of_ascii_decimal. }
  unfold r. rewrite Hp. unfold redis_host, os_getenv.
  destruct (environ !! "REDIS_HOST"); reflexivity.
Qed.

Lemma r_reads_redis_variables_witness :
  (String.length (decimal 6380) <= max_str_digits_threshold)%nat /\
  ({["REDIS_HOST" := "redis"; "REDIS_PORT" := "6380"]} : gmap string string)
    !! "REDIS_PORT" = Some (decimal 6380) /\
  r default_max_str_digits {["REDIS_HOST" := "redis"; "REDIS_PORT" := "6380"]} =
    Some (Returns {| host := PyStr "redis"; port := 6380; decode_responses := true |}).
Proof.
  split; [apply Nat.leb_le; reflexivity|]. split; [reflexivity|].
  etransitivity.
  - apply (r_reads_redis_variables default_max_str_digits
             {["REDIS_HOST" := "redis"; "REDIS_PORT" := "6380"]} 6380%N).
    + apply Nat.leb_le; reflexivity.
    + left; reflexivity.
  - vm_compute; reflexivity.
Defined.

(** * Further properties of the views *)

Lemma serve_fst_cons (q : request) (qs : list request) (w : redis_server) :
  fst (serve (q :: qs) w) =
    fst (dispatch (view_of q) w) :: fst (serve qs (snd (view_of q w))).
Proof.
  cbn [serve]. rewrite <- dispatch_snd.
  destruct (dispatch (view_of q) w) as [resp w'].
  cbn [fst snd]. destruct (serve qs w') as [resps w'']. reflexivity.
Qed.

Lemma serve_preserves_reachable (qs : list request) (w : redis_server) :
  reachable (snd (serve qs w)) = reachable w.
Proof.
  revert w. induction qs as [|q qs IH]; intros w; [reflexivity|].
  rewrite serve_cons, IH. apply view_preserves_reachable.
Qed.

Lemma view_down (q : request) (w : redis_server) :
  reachable w = false ->
  dispatch (view_of q) w = (answer_when_down q, w).
Proof.
  intros Hdown. unfold dispatch.
  destruct q as [|k v|k]; cbn [view_of answer_when_down].
  - reflexivity.
  - rewrite set_value_eq, Hdown. reflexivity.
  - rewrite get_value_eq, Hdown. reflexivity.
Qed.

(** X1: a second write to the same key leaves the server exactly as if the
    first had never happened. *)
Theorem set_value_overwrites (w : redis_server) (k v1 v2 : string) :
  snd (set_value k v2 (snd (set_value k v1 w))) = snd (set_value k v2 w).
Proof.
  rewrite !set_value_eq.
  destruct (reachable w) eqn:Hup; cbn [snd].
  - unfold stored; cbn [reachable data]. rewrite Hup. cbn [snd].
    now rewrite insert_insert_eq.
  - rewrite Hup. reflexivity.
Qed.

(** X2: writes to two different keys commute: either order leaves the same
    server state. *)
Theorem set_value_commutes (w : redis_server) (k1 v1 k2 v2 : string) :
  k1 <> k2 ->
  snd (set_value k2 v2 (snd (set_value k1 v1 w))) =
  snd (set_value k1 v1 (snd (set_value k2 v2 w))).
Proof.
  intros Hne. rewrite !set_value_eq.
  destruct (reachable w) eqn:Hup; cbn [snd].
  - unfold stored; cbn [reachable data]. rewrite Hup. cbn [snd].
    f_equal. now apply insert_insert_ne.
  - rewrite Hup. reflexivity.
Qed.

Lemma set_value_commutes_witness :
  "a" <> "b" /\
  snd (set_value "b" "2" (snd (set_value "a" "1" (mkServer true ∅)))) =
  snd (set_value "a" "1" (snd (set_value "b" "2" (mkServer true ∅)))).
Proof.
  split; [discriminate|].
  apply (set_value_commutes (mkServer true ∅) "a" "1" "b" "2"); discriminate.
Defined.

(** X3: when the server cannot be reached, [set_value] raises the client's
    [ConnectionError], the answer is 500 and nothing is stored. *)
Theorem set_value_unreachable (w : redis_server) (k v : string) :
  reachable w = false ->
  set_value k v w = (Raises ConnectionError, w) /\
  dispatch (set_value k v) w = (internal_server_error, w).
Proof.
  intros Hdown. unfold dispatch. rewrite set_value_eq, Hdown.
  split; reflexivity.
Qed.

Lemma set_value_unreachable_witness :
  reachable (mkServer false {["k" := "old"]}) = false /\
  dispatch (set_value "k" "new") (mkServer false {["k" := "old"]}) =
    (internal_server_error, mkServer false {["k" := "old"]}).
Proof.
  split; [reflexivity|].
  apply (set_value_unreachable (mkServer false {["k" := "old"]}) "k" "new" eq_refl).
Defined.

(** X4: while the server cannot be reached, no sequence of requests changes
    it; the welcome route still answers 200 and every other request is
    answered 500. *)
Theorem serve_unreachable (qs : list request) (w : redis_server) :
  reachable w = false ->
  serve qs w = (map answer_when_down qs, w).
Proof.
  intros Hdown. induction qs as [|q qs IH]; [reflexivity|].
  cbn [serve map]. rewrite (view_down q w Hdown), IH. reflexivity.
Qed.

Lemma serve_unreachable_witness :
  reachable (mkServer false ∅) = false /\
  serve [SetValue "a" "1"; Home; GetValue "a"] (mkServer false ∅) =
    (map answer_when_down [SetValue "a" "1"; Home; GetValue "a"], mkServer false ∅).
Proof.
  split; [reflexivity|].
  apply (serve_unreachable [SetValue "a" "1"; Home; GetValue "a"] (mkServer false ∅) eq_refl).
Defined.

Lemma serve_data_last_write (qs : list request) (w : redis_server) (k : string) :
  reachable w = true ->
  data (snd (serve qs w)) !! k = last_write k qs (data w !! k).
Proof.
  revert w. induction qs as [|q qs IH]; intros w Hup; [reflexivity|].
  rewrite serve_cons, IH by (now rewrite view_preserves_reachable).
  destruct q as [|k0 v0|k0]; cbn [view_of last_write].
  - reflexivity.
  - rewrite set_value_eq, Hup. cbn. f_equal.
    destruct (decide (k0 = k)) as [->|Hne].
    + apply lookup_insert_eq.
    + now apply lookup_insert_ne.
  - rewrite get_value_eq, Hup. reflexivity.
Qed.

(** X5: on a reachable server, after any sequence of requests, reading a
    key returns the value of the last write to that key in the sequence,
    or what the key held before when the sequence never writes it. *)
Theorem get_value_after_serve (qs : list request) (w : redis_server) (k : string) :
  reachable w = true ->
  fst (get_value k (snd (serve qs w))) =
    Returns (jsonify [("key", JString k);
                      ("value", json_of_optional (last_write k qs (data w !! k)))]).
Proof.
  intros Hup. rewrite get_value_eq, serve_preserves_reachable, Hup.
  cbn [fst]. now rewrite serve_data_last_write.
Qed.

Lemma get_value_after_serve_witness :
  reachable (mkServer true {["a" := "0"]}) = true /\
  fst (get_value "a"
         (snd (serve [SetValue "a" "1"; SetValue "b" "2"; GetValue "b"; SetValue "a" "3"]
                     (mkServer true {["a" := "0"]})))) =
    Returns (jsonify [("key", JString "a"); ("value", JString "3")]).
Proof.
  split; [reflexivity|].
  apply (get_value_after_serve
           [SetValue "a" "1"; SetValue "b" "2"; GetValue "b"; SetValue "a" "3"]
           (mkServer true {["a" := "0"]}) "a" eq_refl).
Defined.

(** X6: the welcome route and reads are invisible in the server state: a
    sequence of requests leaves the server as its writes alone would. *)
Theorem serve_state_from_writes (qs : list request) (w : redis_server) :
  snd (serve qs w) = snd (serve (List.filter is_write qs) w).
Proof.
  revert w. induction qs as [|q qs IH]; intros w; [reflexivity|].
  rewrite serve_cons.
  destruct q as [|k0 v0|k0]; cbn [List.filter is_write view_of].
  - now rewrite IH.
  - now rewrite serve_cons, IH.
  - rewrite IH. f_equal. rewrite get_value_eq.
    destruct (reachable w); reflexivity.
Qed.

(** X7: a key that is absent and that no request of a sequence writes is
    still read as [null] after the sequence. *)
Theorem never_set_reads_null (qs : list request) (w : redis_server) (k : string) :
  reachable w = true ->
  data w !! k = None ->
  (forall v, ~ In (SetValue k v) qs) ->
  fst (get_value k (snd (serve qs w))) =
    Returns (jsonify [("key", JString k); ("value", JNull)]).
Proof.
  intros Hup Habs Hnot.
  rewrite get_value_eq, serve_preserves_reachable, Hup. cbn [fst].
  now rewrite (never_set_absent qs w k Habs Hnot).
Qed.

Lemma never_set_reads_null_witness :
  reachable (mkServer true ∅) = true /\
  data (mkServer true ∅) !! "b" = None /\
  fst (get_value "b" (snd (serve [SetValue "a" "1"; GetValue "b"] (mkServer true ∅)))) =
    Returns (jsonify [("key", JString "b"); ("value", JNull)]).
Proof.
  split; [reflexivity|]. split; [reflexivity|].
  apply (never_set_reads_null [SetValue "a" "1"; GetValue "b"] (mkServer true ∅) "b");
    [reflexivity | reflexivity |].
  intros v [H|[H|[]]]; discriminate H.
Defined.

Lemma dispatch_status (q : request) (w : redis_server) :
  status (fst (dispatch (view_of q) w)) = if reachable w then 200 else
    match q with Home => 200 | _ => 500 end.
Proof.
  unfold dispatch. destruct q as [|k v|k]; cbn [view_of].
  - destruct (reachable w); reflexivity.
  - rewrite set_value_eq. destruct (reachable w); reflexivity.
  - rewrite get_value_eq. destruct (reachable w); reflexivity.
Qed.

(** X8: every request gets exactly one answer, and the only status codes
    the service ever produces are 200 and 500. *)
Theorem serve_statuses (qs : list request) (w : redis_server) :
  length (fst (serve qs w)) = length qs /\
  Forall (fun resp => status resp = 200 \/ status resp = 500) (fst (serve qs w)).
Proof.
  revert w. induction qs as [|q qs IH]; intros w.
  - split; [reflexivity | constructor].
  - rewrite serve_fst_cons. destruct (IH (snd (view_of q w))) as [Hlen Hall].
    split; [cbn [length]; now rewrite Hlen|].
    constructor; [|exact Hall].
    rewrite dispatch_status. destruct (reachable w); [now left|].
    destruct q; [now left | now right | now right].
Qed.

Lemma wsgi_app_matched (path : string) (q : request) (w : redis_server) :
  url_map path = Some q -> wsgi_app path w = dispatch (view_of q) w.
Proof. intros H. unfold wsgi_app. now rewrite H. Qed.




(** X14: the paths built from the two patterns with non-empty, slash-free
    parts reach the views with exactly these parts: ['/set/k/v'] is
    answered by [set_value k v] and ['/get/k'] by [get_value k]. *)
Theorem url_map_round_trip (k v : string) (w : redis_server) :
  k <> "" -> v <> "" -> no_slash k = true -> no_slash v = true ->
  wsgi_app ("/set/" +:+ k +:+ "/" +:+ v) w = dispatch (set_value k v) w /\
  wsgi_app ("/get/" +:+ k) w = dispatch (get_value k) w.
Proof.
  intros Hk Hv Hsk Hsv.
  assert (Hck : converter_matches k = true).
  { unfold converter_matches. apply negb_true_iff. now apply String.eqb_neq. }
  assert (Hcv : converter_matches v = true).
  { unfold converter_matches. apply negb_true_iff. now apply String.eqb_neq. }
  split.
  - apply (wsgi_app_matched _ (SetValue k v)). unfold url_map.
    rewrite (pieces_set k v Hsk Hsv). cbn [match_rules].
    now rewrite Hck, Hcv.
  - apply (wsgi_app_matched _ (GetValue k)). unfold url_map.
    rewrite (pieces_get k Hsk). cbn [match_rules]. now rewrite Hck.
Qed.

Lemma url_map_round_trip_witness :
  "colour" <> "" /\ "blue" <> "" /\
  no_slash "colour" = true /\ no_slash "blue" = true /\
  wsgi_app "/set/colour/blue" (mkServer true ∅) =
    dispatch (set_value "colour" "blue") (mkServer true ∅) /\
  wsgi_app "/get/colour" (mkServer true ∅) =
    dispatch (get_value "colour") (mkServer true ∅).
Proof.
  split; [discriminate|]. split; [discriminate|].
  split; [reflexivity|]. split; [reflexivity|].
  apply (url_map_round_trip "colour" "blue" (mkServer true ∅));
    [discriminate | discriminate | reflexivity | reflexivity].
Defined.

Lemma match_rules_parts (pieces : list string) (q : request) :
  match_rules pieces = Some q ->
  match q with
  | Home => True
  | SetValue k v => In k pieces /\ In v pieces /\ k <> "" /\ v <> ""
  | GetValue k => In k pieces /\ k <> ""
  end.
Proof.
  unfold match_rules, converter_matches.
  destruct pieces as [|p [|a [|b [|c rest]]]]; try discriminate.
  - destruct (String.eqb p ""); [|discriminate]. now intros [= <-].
  - destruct (String.eqb p "get"); [|discriminate].
    destruct (String.eqb_spec a ""); [discriminate|].
    intros [= <-]. split; [right; now left | assumption].
  - destruct (String.eqb p "set"); [|discriminate].
    destruct (String.eqb_spec a ""); [discriminate|].
    destruct (String.eqb_spec b ""); [discriminate|].
    intros [= <-]. repeat split; try assumption.
    + right; now left.
    + right; right; now left.
Qed.

(** X15: the views never receive an empty argument or one with a slash:
    whatever the path, when the URL map selects [set_value] or [get_value]
    the key and the value it passes are non-empty and free of slashes. *)
Theorem views_get_proper_parts (path : string) (q : request) :
  url_map path = Some q ->
  match q with
  | Home => True
  | SetValue k v => k <> "" /\ v <> "" /\ no_slash k = true /\ no_slash v = true
  | GetValue k => k <> "" /\ no_slash k = true
  end.
Proof.
  unfold url_map. intros H. apply match_rules_parts in H.
  assert (Hall := split_slash_pieces (strip_leading_slashes path)).
  rewrite Forall_forall in Hall.
  destruct q as [|k v|k].
  - exact I.
  - destruct H as (Hk & Hv & Hnk & Hnv).
    repeat split; try assumption; now apply Hall, list_elem_of_In.
  - destruct H as (Hk & Hnk). split; [assumption | now apply Hall, list_elem_of_In].
Qed.

Lemma views_get_proper_parts_witness :
  url_map "/set/a/b" = Some (SetValue "a" "b") /\
  ("a" <> "" /\ "b" <> "" /\ no_slash "a" = true /\ no_slash "b" = true).
Proof.
  split; [reflexivity|].
  apply (views_get_proper_parts "/set/a/b" (SetValue "a" "b") eq_refl).
Defined.

(** * Further properties of the configuration *)

(** X11: blanks around the numeral in [REDIS_PORT] (a trailing newline, for
    one) do not matter: for a numeral of at most 640 digits the port is
    the number written, whatever the interpreter's digit limit. *)
Theorem redis_port_ignores_blanks (limit : nat) (environ : gmap string string)
    (n : N) (pre post : string) :
  (String.length (decimal n) <= max_str_digits_threshold)%nat ->
  all_space pre = true ->
  all_space post = true ->
  environ !! "REDIS_PORT" = Some (pre +:+ decimal n +:+ post) ->
  redis_port limit environ = Some (Returns (Z.of_N n)).
Proof.
  intros Hlen Hpre Hpost Henv.
  unfold redis_port, os_getenv. rewrite Henv. cbn [py_int]. unfold int_of_str.
  rewrite !ascii_only_app, ascii_only_decimal, !ascii_only_blanks by assumption.
  cbn [andb]. rewrite int_of_ascii_leading_blanks by exact Hpre.
  now rewrite int_of_ascii_decimal.
Qed.

Lemma redis_port_ignores_blanks_witness :
  (String.length (decimal 6380) <= max_str_digits_threshold)%nat /\
  all_space " " = true /\
  all_space (String "010" "") = true /\
  ({["REDIS_PORT" := " " +:+ decimal 6380 +:+ String "010" ""]} : gmap string string)
    !! "REDIS_PORT" = Some (" " +:+ decimal 6380 +:+ String "010" "") /\
  redis_port default_max_str_digits
    {["REDIS_PORT" := " " +:+ decimal 6380 +:+ String "010" ""]} =
    Some (Returns 6380).
Proof.
  split; [apply Nat.leb_le; reflexivity|].
  split; [reflexivity|]. split; [reflexivity|]. split; [reflexivity|].
  apply (redis_port_ignores_blanks default_max_str_digits
           {["REDIS_PORT" := " " +:+ decimal 6380 +:+ String "010" ""]}
           6380%N " " (String "010" ""));
    [apply Nat.leb_le; reflexivity | reflexivity | reflexivity | reflexivity].
Defined.

(** X12: the port is not range-checked when the client is built: a minus
    sign before a numeral of at most 640 digits in [REDIS_PORT] yields a
    client with the negative port, whatever the interpreter's digit
    limit. *)
Theorem r_accepts_negative_port (limit : nat) (environ : gmap string string) (n : N) :
  (String.length (decimal n) <= max_str_digits_threshold)%nat ->
  environ !! "REDIS_PORT" = Some ("-" +:+ decimal n) ->
  r limit environ =
    Some (Returns {| host := redis_host environ; port := - Z.of_N n;
                     decode_responses := true |}).
Proof.
  intros Hlen Henv. unfold r, redis_port, os_getenv at 1. rewrite Henv.
  cbn [py_int]. unfold int_of_str.
  rewrite ascii_only_app, ascii_only_decimal. cbn [ascii_only andb].
  change (is_ascii "-") with true. cbn [andb].
  now rewrite int_of_ascii_minus_decimal.
Qed.

Lemma r_accepts_negative_port_witness :
  (String.length (decimal 1) <= max_str_digits_threshold)%nat /\
  ({["REDIS_PORT" := "-" +:+ decimal 1]} : gmap string string) !! "REDIS_PORT" =
    Some ("-" +:+ decimal 1) /\
  r default_max_str_digits {["REDIS_PORT" := "-" +:+ decimal 1]} =
    Some (Returns {| host := redis_host {["REDIS_PORT" := "-" +:+ decimal 1]};
                     port := -1; decode_responses := true |}).
Proof.
  split; [apply Nat.leb_le; reflexivity|]. split; [reflexivity|].
  apply (r_accepts_negative_port default_max_str_digits
           {["REDIS_PORT" := "-" +:+ decimal 1]} 1%N);
    [apply Nat.leb_le; reflexivity | reflexivity].
Defined.

(** X13: a [REDIS_PORT] of ASCII text without any of the digits 0 to 9 (the
    empty string, a host name, a lone sign) makes [int] raise
    [ValueError], so the module fails to import and no client exists. *)
Theorem r_port_without_digit_raises (limit : nat) (environ : gmap string string)
    (s : string) :
  ascii_only s = true ->
  has_digit s = false ->
  environ !! "REDIS_PORT" = Some s ->
  r limit environ = Some (Raises ValueError).
Proof.
  intros Hascii Hnd Henv. unfold r, redis_port, os_getenv. rewrite Henv.
  cbn [py_int]. unfold int_of_str.
  now rewrite Hascii, int_of_ascii_needs_digit.
Qed.

Lemma r_port_without_digit_raises_witness :
  ascii_only "redis" = true /\
  has_digit "redis" = false /\
  ({["REDIS_PORT" := "redis"]} : gmap string string) !! "REDIS_PORT" = Some "redis" /\
  r default_max_str_digits {["REDIS_PORT" := "redis"]} = Some (Raises ValueError).
Proof.
  split; [reflexivity|]. split; [reflexivity|]. split; [reflexivity|].
  apply (r_port_without_digit_raises default_max_str_digits
           {["REDIS_PORT" := "redis"]} "redis"); reflexivity.
Defined.
